(** * DIM: loadout shape adapter and advanced-write-action token broker

    A shallow embedding of
    - [convertDimApiLoadoutToLoadout] and
      [convertDimApiLoadoutItemToLoadoutItem] (loadout selectors), and
    - [tokenValid], [getAwaToken], [refreshItemAfterAWA] and [insertPlug]
      (app/inventory/advanced-write-actions.ts),
    together with the properties the specification states about them.

    Conventions.  JavaScript numbers that hold counters, hashes and enum
    values are integers here ([Z]).  An optional property ([x?: T]) is an
    [option].  A value thrown and a value returned are the two sides of a
    sum, and every effectful function threads the whole observable world
    (module-level cache, IndexedDB store, notifications, logs, dispatched
    actions), which keeps its changes when an exception is thrown. *)

From stdpp Require Import gmap strings list.
From Stdlib Require Import ZArith Lia.

Local Open Scope Z_scope.

(** ** JavaScript truthiness of the values the code tests with [||] and [!] *)

Module Js.

(** [s || d] on an optional string: [undefined] and [""] are falsy. *)
Definition truthyString (s : option string) : bool :=
  match s with
  | Some EmptyString => false
  | Some _ => true
  | None => false
  end.

Definition orString (s : option string) (d : string) : string :=
  match s with
  | Some v => if truthyString s then v else d
  | None => d
  end.

(** [n || d] on an optional integer: [undefined] and [0] are falsy. *)
Definition orNumber (n : option Z) (d : Z) : Z :=
  match n with
  | Some v => if Z.eqb v 0 then d else v
  | None => d
  end.

(** [b || false] on an optional boolean. *)
Definition orFalse (b : option bool) : bool :=
  match b with
  | Some v => v
  | None => false
  end.

End Js.

(** ** Loadouts: the DIM API storage format and the in-memory format *)

Module DimApi.

(** [LoadoutItem] of dim-api-types: [id] and [amount] are optional. *)
Module LoadoutItem.
Record t := mk { id : option string; hash : Z; amount : option Z }.
End LoadoutItem.

(** [Loadout] of dim-api-types; [P] is the opaque [LoadoutParameters]. *)
Module Loadout.
Record t {P : Type} := mk {
  id : string;
  classType : Z;
  name : string;
  clearSpace : option bool;
  equipped : list LoadoutItem.t;
  unequipped : list LoadoutItem.t;
  parameters : option P
}.
Arguments t : clear implicits.
Arguments mk {P}.
End Loadout.

End DimApi.

Module LoadoutItem.
Record t := mk { id : string; hash : Z; amount : Z; equipped : bool }.
End LoadoutItem.

Module Loadout.
Record t {P : Type} := mk {
  id : string;
  classType : Z;
  name : string;
  clearSpace : bool;
  items : list LoadoutItem.t;
  parameters : option P
}.
Arguments t : clear implicits.
Arguments mk {P}.
End Loadout.

Module Loadouts.

(** Converts DimApiLoadoutItem to real loadout items. *)
Definition convertDimApiLoadoutItemToLoadoutItem
    (item : DimApi.LoadoutItem.t) (equipped : bool) : LoadoutItem.t :=
  {| LoadoutItem.id := Js.orString (DimApi.LoadoutItem.id item) "0";
     LoadoutItem.hash := DimApi.LoadoutItem.hash item;
     LoadoutItem.amount := Js.orNumber (DimApi.LoadoutItem.amount item) 1;
     LoadoutItem.equipped := equipped |}.

(** Converts the API storage format to the old loadout format. *)
Definition convertDimApiLoadoutToLoadout {P : Type}
    (loadout : DimApi.Loadout.t P) : Loadout.t P :=
  {| Loadout.id := DimApi.Loadout.id loadout;
     Loadout.classType := DimApi.Loadout.classType loadout;
     Loadout.name := DimApi.Loadout.name loadout;
     Loadout.clearSpace := Js.orFalse (DimApi.Loadout.clearSpace loadout);
     Loadout.items :=
       map (fun i => convertDimApiLoadoutItemToLoadoutItem i true)
           (DimApi.Loadout.equipped loadout)
       ++ map (fun i => convertDimApiLoadoutItemToLoadoutItem i false)
              (DimApi.Loadout.unequipped loadout);
     Loadout.parameters := DimApi.Loadout.parameters loadout |}.

End Loadouts.

(** The two selectors of the same file.  [currentProfileSelector] lives
    elsewhere; its result is the argument of the combiner function that
    [createSelector] wraps.  A profile's [loadouts] object is given by its
    entries in the order [Object.values] enumerates them. *)
Module Selectors.

Record Profile {P : Type} := {
  loadouts : list (string * DimApi.Loadout.t P)
}.
Arguments Profile : clear implicits.

(** The slice [state.loadouts] of the Redux state. *)
Record LoadoutsState {P : Type} := {
  previousLoadouts : gmap string (list (Loadout.t P))
}.
Arguments LoadoutsState : clear implicits.

(** [Object.values(profile.loadouts)] *)
Definition values {P : Type} (profile : Profile P) : list (DimApi.Loadout.t P) :=
  map snd (loadouts profile).

(** All loadouts relevant to the current account. *)
Definition loadoutsSelector {P : Type} (profile : option (Profile P))
  : list (Loadout.t P) :=
  match profile with
  | Some p => map Loadouts.convertDimApiLoadoutToLoadout (values p)
  | None => []
  end.

(** An array is truthy even when empty, and [_.last([])] is [undefined]. *)
Definition previousLoadoutSelector {P : Type} (state : LoadoutsState P)
    (storeId : string) : option (Loadout.t P) :=
  match previousLoadouts state !! storeId with
  | Some stack => last stack
  | None => None
  end.

End Selectors.

(** ** Advanced write actions: data *)

(** [AwaType] of bungie-api-ts: the action a token authorises. *)
Inductive AwaType := AwaNone | InsertPlugs.

(** [AwaUserSelection] of bungie-api-ts. *)
Inductive AwaUserSelection := SelectionNone | Rejected | Approved.

#[global] Instance AwaType_eq_dec : EqDecision AwaType.
Proof. solve_decision. Defined.

#[global] Instance AwaType_countable : Countable AwaType.
Proof.
  refine (inj_countable'
            (fun a => match a with AwaNone => 0%nat | InsertPlugs => 1%nat end)
            (fun n => match n with O => AwaNone | _ => InsertPlugs end) _).
  intros []; reflexivity.
Defined.

#[global] Instance AwaUserSelection_eq_dec : EqDecision AwaUserSelection.
Proof. solve_decision. Defined.

(** [AwaAuthorizationResult] of bungie-api-ts; [validUntil] is optional. *)
Module AwaAuthorizationResult.
Record t := mk {
  userSelection : AwaUserSelection;
  responseReason : Z;
  developerNote : string;
  actionToken : string;
  maximumNumberOfUses : Z;
  validUntil : option string;
  type : AwaType;
  membershipType : Z
}.
End AwaAuthorizationResult.

(** A cache entry: [AwaAuthorizationResult & { used: number }]. *)
Module CachedToken.
Record t := mk { result : AwaAuthorizationResult.t; used : Z }.

Definition userSelection (i : t) := AwaAuthorizationResult.userSelection (result i).
Definition developerNote (i : t) := AwaAuthorizationResult.developerNote (result i).
Definition actionToken (i : t) := AwaAuthorizationResult.actionToken (result i).
Definition maximumNumberOfUses (i : t) :=
  AwaAuthorizationResult.maximumNumberOfUses (result i).
Definition validUntil (i : t) := AwaAuthorizationResult.validUntil (result i).

(** [{ ...response, used: 0 }] *)
Definition fresh (r : AwaAuthorizationResult.t) : t := mk r 0.

(** [info.used++] *)
Definition use (i : t) : t := mk (result i) (used i + 1).
End CachedToken.

(** The object [awaCache]: action type to cache entry. *)
Abbreviation AwaCache := (gmap AwaType CachedToken.t).

Module DestinyAccount.
Record t := mk { membershipId : string; originalPlatformType : Z }.
End DestinyAccount.

(** The two properties of a [DimItem] the workflows read. *)
Module DimItem.
Record t := mk { id : string; owner : string }.
End DimItem.

Module DimSocket.
Record t := mk { socketIndex : Z }.
End DimSocket.

Module DimStore.
Record t := mk { id : string }.
End DimStore.

(** [DestinyItemChangeResponse]; [I] and [C] are the opaque item payloads. *)
Module DestinyItemChangeResponse.
Record t {I C : Type} := mk {
  item : I;
  addedInventoryItems : list C;
  removedInventoryItems : list C
}.
Arguments t : clear implicits.
Arguments mk {I C}.

(** [{ ...changes, item: itemInfo }] *)
Definition withItem {I C} (changes : t I C) (itemInfo : I) : t I C :=
  mk itemInfo (addedInventoryItems changes) (removedInventoryItems changes).
End DestinyItemChangeResponse.

(** The argument object of [insertSocketPlug]. *)
Module InsertPlugRequest.
Record t := mk {
  actionToken : string;
  itemInstanceId : string;
  socketIndex : Z;
  socketArrayType : Z;
  plugItemHash : Z;
  characterId : string;
  membershipType : Z
}.
End InsertPlugRequest.

(** The arguments of one [requestAdvancedWriteActionToken] call. *)
Module TokenRequest.
Record t := mk {
  account : DestinyAccount.t;
  action : AwaType;
  storeId : string;
  item : option DimItem.t
}.
End TokenRequest.

Inductive NotificationType := NotifyInfo | NotifyError.

#[global] Instance NotificationType_eq_dec : EqDecision NotificationType.
Proof. solve_decision. Defined.

Module Notification.
Record t := mk { type : NotificationType; title : string; body : string }.
End Notification.

(** [DestinySocketArrayType.Default] *)
Definition SocketArrayDefault : Z := 0.

(** Everything imported from outside the two files: the payload types of
    the Bungie API, the error class, localisation, date parsing and the
    three remote calls.  A remote call either throws ([inl]) or resolves
    ([inr]); the token request also tells the clock reading at which it
    settles, given the reading at which it was sent. *)
Class Env := {
  DestinyItemResponse : Type;
  DestinyItemComponent : Type;
  D2ManifestDefinitions : Type;
  InventoryBuckets : Type;
  Error : Type;
  (** [new DimError(key, message?)] *)
  DimError : string -> option string -> Error;
  (** [error.withError(cause)] *)
  withError : Error -> Error -> Error;
  (** [e.message] *)
  message : Error -> string;
  (** the runtime's [TypeError] for a property access on [undefined] *)
  typeError : Error;
  (** i18next [t(key)] *)
  t : string -> string;
  (** time value of [new Date(s)]; [None] is an invalid date *)
  parseDate : string -> option Z;
  requestAdvancedWriteActionToken :
    TokenRequest.t -> Z -> Z * (Error + AwaAuthorizationResult.t);
  insertSocketPlug :
    InsertPlugRequest.t ->
    Error + DestinyItemChangeResponse.t DestinyItemResponse DestinyItemComponent;
  getSingleItem : string -> DestinyAccount.t -> Error + DestinyItemResponse
}.

(** ** Advanced write actions: the observable world and the workflows *)

Section Workflows.

Context {env : Env}.

(** The part of the Redux state the selectors read.  The source asserts
    each selector result non-null ([!]); it is a plain value here. *)
Record RootState := {
  currentAccount : DestinyAccount.t;
  currentStore : DimStore.t;
  d2Manifest : D2ManifestDefinitions;
  buckets : InventoryBuckets
}.

(** Payload of the [awaItemChanged] action. *)
Record AwaItemChanged := {
  changes : DestinyItemChangeResponse.t DestinyItemResponse DestinyItemComponent;
  defs : D2ManifestDefinitions;
  changedBuckets : InventoryBuckets
}.

(** One [errorLog(tag, text, item, e)] call. *)
Record LogEntry := {
  logTag : string;
  logText : string;
  logItem : DimItem.t;
  logError : Error
}.

(** Everything a workflow can read or change.  The lists are logs, the
    most recent entry first.  IndexedDB reads and writes succeed and take
    no time; the clock moves while a token request is in flight. *)
Record World := {
  (** the module variable [awaCache]; [None] before the first load *)
  awaCache : option AwaCache;
  (** the idb-keyval store *)
  idb : gmap string AwaCache;
  (** every [set(key, value)] performed *)
  idbWrites : list (string * AwaCache);
  (** the reading [new Date()] gives *)
  now : Z;
  notifications : list Notification.t;
  tokenRequests : list TokenRequest.t;
  plugRequests : list InsertPlugRequest.t;
  itemFetches : list string;
  errorLogs : list LogEntry;
  state : RootState;
  dispatched : list AwaItemChanged
}.

(** A computation: run on a world, it throws ([inl]) or returns ([inr]),
    and leaves a world either way. *)
Definition M (A : Type) : Type := World -> (Error + A) * World.

Definition ret {A} (a : A) : M A := fun w => (inr a, w).

Definition throw {A} (e : Error) : M A := fun w => (inl e, w).

Definition bind {A B} (m : M A) (k : A -> M B) : M B :=
  fun w =>
    match m w with
    | (inr a, w') => k a w'
    | (inl e, w') => (inl e, w')
    end.

(** [try { body } catch (e) { handler }] *)
Definition tryCatch {A} (body : M A) (handler : Error -> M A) : M A :=
  fun w =>
    match body w with
    | (inr a, w') => (inr a, w')
    | (inl e, w') => handler e w'
    end.

Definition gets {A} (f : World -> A) : M A := fun w => (inr (f w), w).

Definition modify (f : World -> World) : M unit := fun w => (inr tt, f w).

End Workflows.

Declare Scope awa_scope.
Delimit Scope awa_scope with awa.

Notation "x <- c ;; k" := (bind c (fun x => k))
  (at level 100, c at next level, right associativity) : awa_scope.
Notation "c ;;; k" := (bind c (fun _ => k))
  (at level 100, right associativity) : awa_scope.

Section Actions.

Context {env : Env}.

Local Open Scope awa_scope.

Definition setAwaCache (c : option AwaCache) (w : World) : World :=
  {| awaCache := c; idb := idb w; idbWrites := idbWrites w; now := now w;
     notifications := notifications w; tokenRequests := tokenRequests w;
     plugRequests := plugRequests w; itemFetches := itemFetches w;
     errorLogs := errorLogs w; state := state w; dispatched := dispatched w |}.

(** idb-keyval [get(key)] *)
Definition idbGet (key : string) : M (option AwaCache) :=
  gets (fun w => idb w !! key).

(** idb-keyval [set(key, value)] *)
Definition idbSet (key : string) (value : AwaCache) : M unit :=
  modify (fun w =>
    {| awaCache := awaCache w; idb := <[key := value]> (idb w);
       idbWrites := (key, value) :: idbWrites w; now := now w;
       notifications := notifications w; tokenRequests := tokenRequests w;
       plugRequests := plugRequests w; itemFetches := itemFetches w;
       errorLogs := errorLogs w; state := state w; dispatched := dispatched w |}).

Definition showNotification (n : Notification.t) : M unit :=
  modify (fun w =>
    {| awaCache := awaCache w; idb := idb w; idbWrites := idbWrites w;
       now := now w; notifications := n :: notifications w;
       tokenRequests := tokenRequests w; plugRequests := plugRequests w;
       itemFetches := itemFetches w; errorLogs := errorLogs w;
       state := state w; dispatched := dispatched w |}).

Definition errorLog (tag text : string) (item : DimItem.t) (e : Error) : M unit :=
  modify (fun w =>
    {| awaCache := awaCache w; idb := idb w; idbWrites := idbWrites w;
       now := now w; notifications := notifications w;
       tokenRequests := tokenRequests w; plugRequests := plugRequests w;
       itemFetches := itemFetches w;
       errorLogs := Build_LogEntry tag text item e :: errorLogs w;
       state := state w; dispatched := dispatched w |}).

(** [dispatch(awaItemChanged(payload))] *)
Definition dispatch (a : AwaItemChanged) : M unit :=
  modify (fun w =>
    {| awaCache := awaCache w; idb := idb w; idbWrites := idbWrites w;
       now := now w; notifications := notifications w;
       tokenRequests := tokenRequests w; plugRequests := plugRequests w;
       itemFetches := itemFetches w; errorLogs := errorLogs w;
       state := state w; dispatched := a :: dispatched w |}).

Definition getState : M RootState := gets state.

(** [await requestAdvancedWriteActionToken(account, action, storeId, item)]:
    the call is recorded, the clock moves to the reading at which the
    request settles, and the outcome is thrown or returned. *)
Definition awaitToken (req : TokenRequest.t) : M AwaAuthorizationResult.t :=
  fun w =>
    let (settled, outcome) := requestAdvancedWriteActionToken req (now w) in
    (outcome,
     {| awaCache := awaCache w; idb := idb w; idbWrites := idbWrites w;
        now := settled; notifications := notifications w;
        tokenRequests := req :: tokenRequests w;
        plugRequests := plugRequests w; itemFetches := itemFetches w;
        errorLogs := errorLogs w; state := state w;
        dispatched := dispatched w |}).

(** [await insertSocketPlug(authenticatedHttpClient, req)] *)
Definition awaitInsertSocketPlug (req : InsertPlugRequest.t)
  : M (DestinyItemChangeResponse.t DestinyItemResponse DestinyItemComponent) :=
  fun w =>
    (insertSocketPlug req,
     {| awaCache := awaCache w; idb := idb w; idbWrites := idbWrites w;
        now := now w; notifications := notifications w;
        tokenRequests := tokenRequests w;
        plugRequests := req :: plugRequests w; itemFetches := itemFetches w;
        errorLogs := errorLogs w; state := state w;
        dispatched := dispatched w |}).

(** [await getSingleItem(id, account)] *)
Definition awaitSingleItem (itemId : string) (account : DestinyAccount.t)
  : M DestinyItemResponse :=
  fun w =>
    (getSingleItem itemId account,
     {| awaCache := awaCache w; idb := idb w; idbWrites := idbWrites w;
        now := now w; notifications := notifications w;
        tokenRequests := tokenRequests w; plugRequests := plugRequests w;
        itemFetches := itemId :: itemFetches w; errorLogs := errorLogs w;
        state := state w; dispatched := dispatched w |}).

End Actions.

(** ** advanced-write-actions.ts *)

Section AdvancedWriteActions.

Context {env : Env}.

Local Open Scope awa_scope.

(** [new Date(info.validUntil) > new Date()]: both sides are compared by
    their time values, and an invalid date compares false. *)
Definition dateInFuture (validUntil : option string) (today : Z) : bool :=
  match validUntil with
  | Some s =>
      match parseDate s with
      | Some expiry => today <? expiry
      | None => false
      end
  | None => false
  end.

Definition tokenValid (today : Z) (info : CachedToken.t) : bool :=
  (negb (Js.truthyString (CachedToken.validUntil info))
   || dateInFuture (CachedToken.validUntil info) today)
  && ((CachedToken.maximumNumberOfUses info =? 0)
      || (CachedToken.used info <=? CachedToken.maximumNumberOfUses info))
  && bool_decide (CachedToken.userSelection info = Approved).

(** [!info || !tokenValid(info)] *)
Definition needsToken (today : Z) (info : option CachedToken.t) : bool :=
  match info with
  | Some i => negb (tokenValid today i)
  | None => true
  end.

(** [info ? info.developerNote : 'no response'] *)
Definition failureNote (info : option CachedToken.t) : string :=
  match info with
  | Some i => CachedToken.developerNote i
  | None => "no response"
  end.

(** [if (!awaCache) { awaCache = (await get('awa-tokens')) || {}; }] *)
Definition loadAwaCache : M AwaCache :=
  loaded <- gets awaCache ;;
  match loaded with
  | Some cache => ret cache
  | None =>
      stored <- idbGet "awa-tokens" ;;
      let cache := default ∅ stored in
      modify (setAwaCache (Some cache)) ;;; ret cache
  end.

(** Writes the object [info] at [awaCache[action]]: the assignment
    [awaCache[action] = info], and every later mutation of [info], which
    is the very object the cache holds. *)
Definition putInfo (action : AwaType) (info : CachedToken.t) : M unit :=
  modify (fun w =>
    setAwaCache (Some (<[action := info]> (default ∅ (awaCache w)))) w).

Definition confirmNotification : Notification.t :=
  {| Notification.type := NotifyInfo;
     Notification.title := t "AWA.ConfirmTitle";
     Notification.body := t "AWA.ConfirmDescription" |}.

(** The body of [if (!info || !tokenValid(info)) { ... }].  The object
    literal [{ ...response, used: 0 }] is an object whatever the response
    is, so [info] is [Some] record when the second test runs. *)
Definition requestFreshToken (account : DestinyAccount.t) (action : AwaType)
    (storeId : string) (item : option DimItem.t) : M (option CachedToken.t) :=
  info <- tryCatch
            (showNotification confirmNotification ;;;
             response <- awaitToken
               {| TokenRequest.account := account; TokenRequest.action := action;
                  TokenRequest.storeId := storeId; TokenRequest.item := item |} ;;
             let info := CachedToken.fresh response in
             putInfo action info ;;;
             ret (Some info))
            (fun e => throw (withError (DimError "AWA.FailedToken" None) e)) ;;
  today <- gets now ;;
  if needsToken today info
  then throw (DimError "AWA.FailedToken" (Some (failureNote info)))
  else ret info.

Definition getAwaToken (account : DestinyAccount.t) (action : AwaType)
    (storeId : string) (item : option DimItem.t) : M string :=
  cache <- loadAwaCache ;;
  let info := cache !! action in
  today <- gets now ;;
  info <- (if needsToken today info
           then requestFreshToken account action storeId item
           else ret info) ;;
  match info with
  | Some i =>
      (* info.used++ *)
      let i := CachedToken.use i in
      putInfo action i ;;;
      cache <- gets awaCache ;;
      idbSet "awa-tokens" (default ∅ cache) ;;;
      ret (CachedToken.actionToken i)
  | None =>
      (* info.used++ on undefined *)
      throw typeError
  end.

(** Updating items is supposed to return the new item; instead the item
    is loaded again. *)
Definition refreshItemAfterAWA (item : DimItem.t)
    (changes : DestinyItemChangeResponse.t DestinyItemResponse DestinyItemComponent)
  : M unit :=
  st <- getState ;;
  let account := currentAccount st in
  changes <- tryCatch
               (itemInfo <- awaitSingleItem (DimItem.id item) account ;;
                ret (DestinyItemChangeResponse.withItem changes itemInfo))
               (fun e =>
                  errorLog "AWA" "Unable to refresh item, falling back on AWA response"
                           item e ;;;
                  ret changes) ;;
  st <- getState ;;
  dispatch {| changes := changes; defs := d2Manifest st;
              changedBuckets := buckets st |}.

(** [item.owner === 'vault' ? currentStore.id : item.owner] *)
Definition actingStoreId (st : RootState) (item : DimItem.t) : string :=
  if String.eqb (DimItem.owner item) "vault"
  then DimStore.id (currentStore st)
  else DimItem.owner item.

Definition insertPlug (item : DimItem.t) (socket : DimSocket.t)
    (plugItemHash : Z) : M unit :=
  st <- getState ;;
  let account := currentAccount st in
  let storeId := actingStoreId st item in
  tryCatch
    (actionToken <- getAwaToken account InsertPlugs storeId (Some item) ;;
     response <- awaitInsertSocketPlug
       {| InsertPlugRequest.actionToken := actionToken;
          InsertPlugRequest.itemInstanceId := DimItem.id item;
          InsertPlugRequest.socketIndex := DimSocket.socketIndex socket;
          InsertPlugRequest.socketArrayType := SocketArrayDefault;
          InsertPlugRequest.plugItemHash := plugItemHash;
          InsertPlugRequest.characterId := storeId;
          InsertPlugRequest.membershipType :=
            DestinyAccount.originalPlatformType account |} ;;
     refreshItemAfterAWA item response)
    (fun e =>
       errorLog "AWA" "Couldn't insert plug" item e ;;;
       showNotification
         {| Notification.type := NotifyError;
            Notification.title := t "AWA.Error";
            Notification.body := message e |}).

End AdvancedWriteActions.

(** ** Notions the specification uses *)

Section SpecNotions.

Context {env : Env}.

(** The cache a call works on: the module variable once it is loaded,
    otherwise what IndexedDB holds under ['awa-tokens'], otherwise the
    empty object. *)
Definition effectiveCache (w : World) : AwaCache :=
  match awaCache w with
  | Some cache => cache
  | None => default ∅ (idb w !! "awa-tokens")
  end.

(** The world once the cache object is [cache] and has been written
    back with [set('awa-tokens', awaCache)]. *)
Definition persisted (cache : AwaCache) (w : World) : World :=
  {| awaCache := Some cache;
     idb := <["awa-tokens" := cache]> (idb w);
     idbWrites := ("awa-tokens", cache) :: idbWrites w;
     now := now w; notifications := notifications w;
     tokenRequests := tokenRequests w; plugRequests := plugRequests w;
     itemFetches := itemFetches w; errorLogs := errorLogs w;
     state := state w; dispatched := dispatched w |}.

(** The world once the confirmation prompt has been shown and the token
    request [req] has settled at clock reading [settled], the cache object
    being [cache]. *)
Definition requested (req : TokenRequest.t) (settled : Z) (cache : AwaCache)
    (w : World) : World :=
  {| awaCache := Some cache; idb := idb w; idbWrites := idbWrites w;
     now := settled;
     notifications := confirmNotification :: notifications w;
     tokenRequests := req :: tokenRequests w;
     plugRequests := plugRequests w; itemFetches := itemFetches w;
     errorLogs := errorLogs w; state := state w; dispatched := dispatched w |}.

(** The same world over another IndexedDB content. *)
Definition withIdb (store : gmap string AwaCache) (w : World) : World :=
  {| awaCache := awaCache w; idb := store; idbWrites := idbWrites w;
     now := now w; notifications := notifications w;
     tokenRequests := tokenRequests w; plugRequests := plugRequests w;
     itemFetches := itemFetches w; errorLogs := errorLogs w;
     state := state w; dispatched := dispatched w |}.

Definition isErrorNotification (n : Notification.t) : bool :=
  bool_decide (Notification.type n = NotifyError).

(** The notification [insertPlug] shows for the caught error [e]. *)
Definition plugErrorNotification (e : Error) : Notification.t :=
  {| Notification.type := NotifyError;
     Notification.title := t "AWA.Error";
     Notification.body := message e |}.

(** The request [insertPlug] sends once it holds [actionToken]. *)
Definition plugRequest (st : RootState) (item : DimItem.t) (socket : DimSocket.t)
    (plugItemHash : Z) (actionToken : string) : InsertPlugRequest.t :=
  {| InsertPlugRequest.actionToken := actionToken;
     InsertPlugRequest.itemInstanceId := DimItem.id item;
     InsertPlugRequest.socketIndex := DimSocket.socketIndex socket;
     InsertPlugRequest.socketArrayType := SocketArrayDefault;
     InsertPlugRequest.plugItemHash := plugItemHash;
     InsertPlugRequest.characterId := actingStoreId st item;
     InsertPlugRequest.membershipType :=
       DestinyAccount.originalPlatformType (currentAccount st) |}.

End SpecNotions.

(** The item id as the specification words it: the sentinel when the
    persisted id is absent, the persisted id otherwise. *)
Definition specItemId (persisted : option string) : string :=
  match persisted with
  | Some s => s
  | None => "0"
  end.

(** ** A concrete environment, for running the workflows on examples *)

Module Demo.

Inductive JsError :=
| Thrown (text : string)
| Dim (code : string) (note : option string)
| Caused (e cause : JsError)
| TypeErr.

Fixpoint jsMessage (e : JsError) : string :=
  match e with
  | Thrown text => text
  | Dim code (Some note) => note
  | Dim code None => code
  | Caused e _ => jsMessage e
  | TypeErr => "TypeError"
  end.

(** Two ISO dates and their time values; anything else is invalid. *)
Definition demoParseDate (s : string) : option Z :=
  if String.eqb s "2020-01-01T00:00:00.000Z" then Some 1577836800000
  else if String.eqb s "2030-01-01T00:00:00.000Z" then Some 1893456000000
  else None.

(** An environment in which the three remote calls have fixed outcomes
    and a token request takes one second. *)
Definition demoEnv
    (token : JsError + AwaAuthorizationResult.t)
    (plug : JsError + DestinyItemChangeResponse.t string string)
    (fetch : JsError + string) : Env :=
  {| DestinyItemResponse := string;
     DestinyItemComponent := string;
     D2ManifestDefinitions := unit;
     InventoryBuckets := unit;
     Error := JsError;
     DimError := Dim;
     withError := Caused;
     message := jsMessage;
     typeError := TypeErr;
     t := fun key => key;
     parseDate := demoParseDate;
     requestAdvancedWriteActionToken := fun _ sent => (sent + 1000, token);
     insertSocketPlug := fun _ => plug;
     getSingleItem := fun _ _ => fetch |}.

Definition approved (quota : Z) (validUntil : option string)
  : AwaAuthorizationResult.t :=
  {| AwaAuthorizationResult.userSelection := Approved;
     AwaAuthorizationResult.responseReason := 0;
     AwaAuthorizationResult.developerNote := "ok";
     AwaAuthorizationResult.actionToken := "token-1";
     AwaAuthorizationResult.maximumNumberOfUses := quota;
     AwaAuthorizationResult.validUntil := validUntil;
     AwaAuthorizationResult.type := InsertPlugs;
     AwaAuthorizationResult.membershipType := 3 |}.

Definition rejected : AwaAuthorizationResult.t :=
  {| AwaAuthorizationResult.userSelection := Rejected;
     AwaAuthorizationResult.responseReason := 0;
     AwaAuthorizationResult.developerNote := "user said no";
     AwaAuthorizationResult.actionToken := "";
     AwaAuthorizationResult.maximumNumberOfUses := 0;
     AwaAuthorizationResult.validUntil := None;
     AwaAuthorizationResult.type := InsertPlugs;
     AwaAuthorizationResult.membershipType := 3 |}.

Definition account : DestinyAccount.t :=
  {| DestinyAccount.membershipId := "4611686018"; 
     DestinyAccount.originalPlatformType := 3 |}.

Definition sword : DimItem.t :=
  {| DimItem.id := "6917529"; DimItem.owner := "vault" |}.

Definition socket : DimSocket.t := {| DimSocket.socketIndex := 2 |}.

Definition plugged : DestinyItemChangeResponse.t string string :=
  DestinyItemChangeResponse.mk "stale" ["added"] ["removed"].

(** The token service approves with quota [quota] and expiry
    [validUntil]; the plug call and the item fetch succeed. *)
Definition granting (quota : Z) (validUntil : option string) : Env :=
  demoEnv (inr (approved quota validUntil)) (inr plugged) (inr "fresh").

(** The user rejects the request in the game. *)
Definition refusing : Env :=
  demoEnv (inr rejected) (inr plugged) (inr "fresh").

(** The token request throws. *)
Definition offline : Env :=
  demoEnv (inl (Thrown "network down")) (inr plugged) (inr "fresh").

(** The token is granted and the plug call throws. *)
Definition plugFails : Env :=
  demoEnv (inr (approved 0 None)) (inl (Thrown "plug refused")) (inr "fresh").

(** The plug call succeeds and the item fetch throws. *)
Definition fetchFails : Env :=
  demoEnv (inr (approved 0 None)) (inr plugged) (inl (Thrown "not found")).

Definition storeId : string := "2305843009".

(** A page just opened, at 2025-01-01T12:00:00Z: nothing loaded, nothing
    shown, [stored] in IndexedDB. *)
Definition startWorld (token : JsError + AwaAuthorizationResult.t)
    (plug : JsError + DestinyItemChangeResponse.t string string)
    (fetch : JsError + string) (stored : gmap string AwaCache)
  : @World (demoEnv token plug fetch) :=
  @Build_World (demoEnv token plug fetch)
    None stored [] 1735732800000 [] [] [] [] []
    (@Build_RootState (demoEnv token plug fetch)
       account {| DimStore.id := storeId |} tt tt)
    [].

(** The same page in each of the environments above. *)
Definition startGranting (quota : Z) (validUntil : option string)
    (stored : gmap string AwaCache) : @World (granting quota validUntil) :=
  startWorld _ _ _ stored.

Definition startRefusing : @World refusing := startWorld _ _ _ ∅.

Definition startOffline : @World offline := startWorld _ _ _ ∅.

Definition startPlugFails : @World plugFails := startWorld _ _ _ ∅.

Definition startFetchFails : @World fetchFails := startWorld _ _ _ ∅.

Definition apiLoadout : DimApi.Loadout.t unit :=
  DimApi.Loadout.mk "loadout-1" 1 "PvP" None
    [DimApi.LoadoutItem.mk (Some "111") 10 (Some 1);
     DimApi.LoadoutItem.mk None 20 None]
    [DimApi.LoadoutItem.mk (Some "333") 30 (Some 5)]
    None.

(** A profile holding two stored loadouts. *)
Definition profile : Selectors.Profile unit :=
  {| Selectors.loadouts :=
       [("loadout-1", apiLoadout);
        ("loadout-2",
         DimApi.Loadout.mk "loadout-2" 2 "Raid" (Some true) []
           [DimApi.LoadoutItem.mk (Some "") 40 (Some 0)] None)] |}.

(** A cache holding an unlimited token for each of the two actions. *)
Definition bothActions : AwaCache :=
  {[AwaNone := CachedToken.mk (approved 0 None) 4;
    InsertPlugs := CachedToken.mk (approved 0 None) 0]}.

(** The page once the module cache has been loaded with [cache]. *)
Definition loadedGranting (quota : Z) (validUntil : option string)
    (cache : AwaCache) (stored : gmap string AwaCache)
  : @World (granting quota validUntil) :=
  setAwaCache (Some cache) (startGranting quota validUntil stored).

End Demo.

(** * Properties *)

(** Reduces the projections of worlds and cache entries. *)
Ltac world_simpl :=
  cbn [awaCache idb idbWrites now notifications tokenRequests plugRequests
       itemFetches errorLogs state dispatched default from_option id failureNote
       CachedToken.use CachedToken.fresh CachedToken.result CachedToken.used
       CachedToken.actionToken CachedToken.developerNote].

(** Runs a computation one layer further: the actions are unfolded down to
    functions on worlds, and the projections are reduced.  [getAwaToken] and
    [refreshItemAfterAWA] stay folded, so that their own lemmas apply. *)
Ltac run_m :=
  repeat (progress (
    unfold requestFreshToken, putInfo, showNotification, idbSet, idbGet,
      errorLog, dispatch, getState, awaitToken, awaitInsertSocketPlug,
      awaitSingleItem;
    unfold modify, gets, ret, throw, bind, tryCatch, setAwaCache;
    world_simpl)).

(** ** The loadout shape adapter *)

Section LoadoutFacts.

Context {P : Type}.

Implicit Types (loadout : DimApi.Loadout.t P) (item : DimApi.LoadoutItem.t).

Lemma convert_items_length loadout :
  length (Loadout.items (Loadouts.convertDimApiLoadoutToLoadout loadout))
  = (length (DimApi.Loadout.equipped loadout)
     + length (DimApi.Loadout.unequipped loadout))%nat.
Proof. simpl. by rewrite length_app, !length_map. Qed.

Lemma convert_items_equipped loadout (i : nat) item :
  DimApi.Loadout.equipped loadout !! i = Some item ->
  Loadout.items (Loadouts.convertDimApiLoadoutToLoadout loadout) !! i
  = Some (Loadouts.convertDimApiLoadoutItemToLoadoutItem item true).
Proof.
  intros Hi. simpl. rewrite lookup_app_l.
  - by rewrite list_lookup_fmap, Hi.
  - rewrite length_map. by eapply lookup_lt_Some.
Qed.

Lemma convert_items_unequipped loadout (j : nat) item :
  DimApi.Loadout.unequipped loadout !! j = Some item ->
  Loadout.items (Loadouts.convertDimApiLoadoutToLoadout loadout)
    !! (length (DimApi.Loadout.equipped loadout) + j)%nat
  = Some (Loadouts.convertDimApiLoadoutItemToLoadoutItem item false).
Proof.
  intros Hj. simpl. rewrite lookup_app_r; rewrite length_map; [|lia].
  replace (_ + j - _)%nat with j by lia.
  by rewrite list_lookup_fmap, Hj.
Qed.

(** C6.  Converting a persisted loadout with N equipped and M unequipped
    items gives exactly N+M in-memory items: entry [i < N] is the
    conversion of the [i]-th equipped item and is marked equipped, entry
    [N + j] is the conversion of the [j]-th unequipped item and is marked
    not equipped; id, classType, name and parameters are carried over. *)
Theorem convertDimApiLoadoutToLoadout_spec loadout :
  let converted := Loadouts.convertDimApiLoadoutToLoadout loadout in
  let N := length (DimApi.Loadout.equipped loadout) in
  let M := length (DimApi.Loadout.unequipped loadout) in
  length (Loadout.items converted) = (N + M)%nat
  /\ (forall (i : nat) item,
        DimApi.Loadout.equipped loadout !! i = Some item ->
        Loadout.items converted !! i
        = Some (Loadouts.convertDimApiLoadoutItemToLoadoutItem item true))
  /\ (forall (j : nat) item,
        DimApi.Loadout.unequipped loadout !! j = Some item ->
        Loadout.items converted !! (N + j)%nat
        = Some (Loadouts.convertDimApiLoadoutItemToLoadoutItem item false))
  /\ (forall (k : nat) converted_item,
        Loadout.items converted !! k = Some converted_item ->
        LoadoutItem.equipped converted_item = bool_decide (k < N)%nat)
  /\ Loadout.id converted = DimApi.Loadout.id loadout
  /\ Loadout.classType converted = DimApi.Loadout.classType loadout
  /\ Loadout.name converted = DimApi.Loadout.name loadout
  /\ Loadout.parameters converted = DimApi.Loadout.parameters loadout.
Proof.
  intros converted N M.
  split; [apply convert_items_length|].
  split; [apply convert_items_equipped|].
  split; [apply convert_items_unequipped|].
  split; [|done].
  intros k ci Hk. subst converted N. simpl in Hk.
  destruct (decide (k < length (DimApi.Loadout.equipped loadout))%nat) as [Hlt|Hge].
  - rewrite lookup_app_l in Hk by (by rewrite length_map).
    rewrite list_lookup_fmap in Hk.
    destruct (DimApi.Loadout.equipped loadout !! k); simplify_eq/=.
    by rewrite bool_decide_eq_true_2.
  - rewrite lookup_app_r in Hk by (rewrite length_map; lia).
    rewrite list_lookup_fmap in Hk.
    destruct (DimApi.Loadout.unequipped loadout !! _); simplify_eq/=.
    by rewrite bool_decide_eq_false_2.
Qed.

End LoadoutFacts.

Lemma convertDimApiLoadoutToLoadout_spec_witness :
  let converted := Loadouts.convertDimApiLoadoutToLoadout Demo.apiLoadout in
  Loadout.items converted !! 1%nat
  = Some (LoadoutItem.mk "0" 20 1 true)
  /\ Loadout.items converted !! 2%nat
    = Some (LoadoutItem.mk "333" 30 5 false).
Proof.
  pose proof (convertDimApiLoadoutToLoadout_spec Demo.apiLoadout)
    as (_ & Heq & Hun & _).
  split.
  - apply (Heq 1%nat (DimApi.LoadoutItem.mk None 20 None)). reflexivity.
  - apply (Hun 0%nat (DimApi.LoadoutItem.mk (Some "333") 30 (Some 5))). reflexivity.
Defined.

(** C7, as the specification words it, fails: a persisted id that is
    present but empty is replaced by the sentinel, it is not carried over. *)
Lemma convertDimApiLoadoutItemToLoadoutItem_empty_id :
  let item := DimApi.LoadoutItem.mk (Some "") 20 (Some 3) in
  LoadoutItem.id (Loadouts.convertDimApiLoadoutItemToLoadoutItem item true) = "0"
  /\ LoadoutItem.id (Loadouts.convertDimApiLoadoutItemToLoadoutItem item true)
     <> specItemId (DimApi.LoadoutItem.id item).
Proof. split; [reflexivity | discriminate]. Qed.

(** C7, amended.  The converted item has id ["0"] when the persisted id is
    absent or the empty string and the persisted id otherwise, amount [1]
    when the persisted amount is absent or [0] and the persisted amount
    otherwise, the persisted hash, and the given equipped flag.  The
    conversion is a total function of its two arguments. *)
Theorem convertDimApiLoadoutItemToLoadoutItem_spec
    (item : DimApi.LoadoutItem.t) (equipped : bool) :
  let converted := Loadouts.convertDimApiLoadoutItemToLoadoutItem item equipped in
  LoadoutItem.id converted
    = match DimApi.LoadoutItem.id item with
      | None => "0"
      | Some s => if decide (s = "") then "0" else s
      end
  /\ LoadoutItem.amount converted
    = match DimApi.LoadoutItem.amount item with
      | None => 1
      | Some a => if decide (a = 0) then 1 else a
      end
  /\ LoadoutItem.hash converted = DimApi.LoadoutItem.hash item
  /\ LoadoutItem.equipped converted = equipped.
Proof.
  destruct item as [[[|c s]|] h [a|]]; simpl; repeat split; try done.
  all: destruct (Z.eqb_spec a 0); by case_decide.
Qed.

(** ** The validity rule *)

Section TokenValidFacts.

Context {env : Env}.

Lemma dateInFuture_iff (validUntil : option string) (today : Z) :
  dateInFuture validUntil today = true <->
  exists s expiry,
    validUntil = Some s /\ parseDate s = Some expiry /\ today < expiry.
Proof.
  unfold dateInFuture. split.
  - destruct validUntil as [s|]; [|done].
    destruct (parseDate s) as [expiry|] eqn:Hparse; [|done].
    intros Hlt%Z.ltb_lt. by exists s, expiry.
  - intros (s & expiry & -> & -> & Hlt). by apply Z.ltb_lt.
Qed.

Lemma truthyString_false (s : option string) :
  Js.truthyString s = false <-> s = None \/ s = Some "".
Proof.
  destruct s as [[|c s]|]; simpl; split; try done; auto.
  all: intros [?|?]; done.
Qed.

Lemma tokenValid_iff (today : Z) (info : CachedToken.t) :
  tokenValid today info = true <->
  (Js.truthyString (CachedToken.validUntil info) = false
   \/ dateInFuture (CachedToken.validUntil info) today = true)
  /\ (CachedToken.maximumNumberOfUses info = 0
      \/ CachedToken.used info <= CachedToken.maximumNumberOfUses info)
  /\ CachedToken.userSelection info = Approved.
Proof.
  unfold tokenValid.
  rewrite !andb_true_iff, !orb_true_iff, negb_true_iff,
    Z.eqb_eq, Z.leb_le, bool_decide_eq_true.
  tauto.
Qed.

(** C1.  [tokenValid] answers true exactly when (the record has no
    expiry: [validUntil] is absent or empty; or [validUntil] parses to a
    time strictly after the current one) and (the quota is 0 or the used
    count is at most the quota) and the selection is Approved.  A record
    with no expiry, quota 0 and Approved selection is valid whatever its
    used count. *)
Theorem tokenValid_spec (today : Z) (info : CachedToken.t) :
  (tokenValid today info = true <->
     ((CachedToken.validUntil info = None \/ CachedToken.validUntil info = Some "")
      \/ exists s expiry,
           CachedToken.validUntil info = Some s
           /\ parseDate s = Some expiry /\ today < expiry)
     /\ (CachedToken.maximumNumberOfUses info = 0
         \/ CachedToken.used info <= CachedToken.maximumNumberOfUses info)
     /\ CachedToken.userSelection info = Approved)
  /\ (forall reason note token type membership used,
        tokenValid today
          (CachedToken.mk
             (AwaAuthorizationResult.mk
                Approved reason note token 0 None type membership)
             used)
        = true).
Proof.
  split.
  - by rewrite tokenValid_iff, truthyString_false, dateInFuture_iff.
  - intros. apply tokenValid_iff. simpl. auto.
Qed.

(** C2, on the code.  A record whose used count has reached a nonzero
    quota still passes the validity check: the comparison is [<=]. *)
Theorem tokenValid_at_quota (today : Z) :
  tokenValid today (CachedToken.mk (Demo.approved 1 None) 1) = true.
Proof. reflexivity. Qed.

(** X18.  The nearby rule the code does implement: strictly over a nonzero
    quota, the check fails. *)
Lemma tokenValid_over_quota (today : Z) (info : CachedToken.t) :
  CachedToken.maximumNumberOfUses info <> 0 ->
  CachedToken.maximumNumberOfUses info < CachedToken.used info ->
  tokenValid today info = false.
Proof.
  intros Hquota Hover. apply not_true_is_false.
  rewrite tokenValid_iff. lia.
Qed.

Lemma tokenValid_expired (today : Z) (info : CachedToken.t) s expiry :
  CachedToken.validUntil info = Some s ->
  s <> "" ->
  parseDate s = Some expiry ->
  expiry <= today ->
  tokenValid today info = false.
Proof.
  intros Hs Hne Hparse Hpast. apply not_true_is_false.
  rewrite tokenValid_iff, truthyString_false, dateInFuture_iff.
  intros [[[?|?]|(s' & expiry' & ? & ? & ?)] _]; simplify_eq; lia.
Qed.

Lemma tokenValid_not_approved (today : Z) (info : CachedToken.t) :
  CachedToken.userSelection info <> Approved ->
  tokenValid today info = false.
Proof.
  intros Hsel. apply not_true_is_false. rewrite tokenValid_iff. tauto.
Qed.

End TokenValidFacts.

(** ** The token broker *)

Section GetAwaTokenFacts.

Context {env : Env}.

Implicit Types (w : World) (account : DestinyAccount.t) (action : AwaType)
  (storeId : string) (item : option DimItem.t).

Lemma loadAwaCache_run w :
  loadAwaCache w
  = (inr (effectiveCache w), setAwaCache (Some (effectiveCache w)) w).
Proof. destruct w as [[cache|] ? ? ? ? ? ? ? ? ? ?]; reflexivity. Qed.

Lemma getAwaToken_run account action storeId item w :
  let cache := effectiveCache w in
  let req := TokenRequest.mk account action storeId item in
  getAwaToken account action storeId item w
  = if needsToken (now w) (cache !! action) then
      match requestAdvancedWriteActionToken req (now w) with
      | (settled, inl e) =>
          (inl (withError (DimError "AWA.FailedToken" None) e),
           requested req settled cache w)
      | (settled, inr response) =>
          if tokenValid settled (CachedToken.fresh response) then
            (inr (AwaAuthorizationResult.actionToken response),
             persisted (<[action := CachedToken.mk response 1]> cache)
                       (requested req settled cache w))
          else
            (inl (DimError "AWA.FailedToken"
                    (Some (AwaAuthorizationResult.developerNote response))),
             requested req settled
               (<[action := CachedToken.fresh response]> cache) w)
      end
    else
      match cache !! action with
      | Some i =>
          (inr (CachedToken.actionToken i),
           persisted (<[action := CachedToken.use i]> cache) w)
      | None => (inl typeError, setAwaCache (Some cache) w)
      end.
Proof.
  intros cache req. unfold getAwaToken, bind at 1.
  rewrite loadAwaCache_run. fold cache.
  clearbody cache.
  destruct w as [c0 store writes today shown reqs plugs fetches logs st acts].
  run_m.
  destruct (needsToken today (cache !! action)) eqn:Hneeds.
  - run_m. fold req.
    destruct (requestAdvancedWriteActionToken req today) as [settled [e|response]];
      run_m; [reflexivity|].
    cbn [needsToken].
    destruct (tokenValid settled (CachedToken.fresh response)) eqn:Hvalid;
      cbn [negb]; run_m; [|reflexivity].
    unfold persisted, requested; world_simpl.
    by rewrite insert_insert_eq.
  - destruct (cache !! action) as [i|] eqn:Hi; run_m; reflexivity.
Qed.

(** C3.  When the cache holds no record for the action, or only an
    invalid one, and the token request resolves with a record that is
    valid, [getAwaToken] shows exactly one notification, of type info,
    sends exactly one token request, leaves the record with used count 1
    in the cache, writes that cache to IndexedDB, and returns the
    record's [actionToken]. *)
Theorem getAwaToken_fresh account action storeId item w settled response :
  let cache := effectiveCache w in
  let req := TokenRequest.mk account action storeId item in
  let cache' := <[action := CachedToken.mk response 1]> cache in
  (cache !! action = None
   \/ exists stale,
        cache !! action = Some stale /\ tokenValid (now w) stale = false) ->
  requestAdvancedWriteActionToken req (now w) = (settled, inr response) ->
  tokenValid settled (CachedToken.fresh response) = true ->
  exists w',
    getAwaToken account action storeId item w
    = (inr (AwaAuthorizationResult.actionToken response), w')
    /\ notifications w' = confirmNotification :: notifications w
    /\ Notification.type confirmNotification = NotifyInfo
    /\ tokenRequests w' = req :: tokenRequests w
    /\ awaCache w' = Some cache'
    /\ cache' !! action = Some (CachedToken.mk response 1)
    /\ idb w' = <["awa-tokens" := cache']> (idb w)
    /\ idbWrites w' = ("awa-tokens", cache') :: idbWrites w.
Proof.
  intros cache req cache' Hcache Hreq Hvalid.
  eexists. split.
  - rewrite getAwaToken_run. fold cache req.
    replace (needsToken (now w) (cache !! action)) with true.
    + rewrite Hreq, Hvalid. reflexivity.
    + destruct Hcache as [->|(stale & -> & Hstale)]; [done|].
      simpl. by rewrite Hstale.
  - repeat split. subst cache'. by rewrite lookup_insert_eq.
Qed.

(** C4.  When the cache holds a valid record for the action,
    [getAwaToken] shows no notification and sends no token request; the
    record's used count goes up by one (to 1 when it was 0), the updated
    cache is written to IndexedDB, and the record's [actionToken] is
    returned. *)
Theorem getAwaToken_cached account action storeId item w info :
  let cache := effectiveCache w in
  let cache' := <[action := CachedToken.use info]> cache in
  cache !! action = Some info ->
  tokenValid (now w) info = true ->
  exists w',
    getAwaToken account action storeId item w
    = (inr (CachedToken.actionToken info), w')
    /\ notifications w' = notifications w
    /\ tokenRequests w' = tokenRequests w
    /\ awaCache w' = Some cache'
    /\ cache' !! action = Some (CachedToken.use info)
    /\ CachedToken.used (CachedToken.use info) = CachedToken.used info + 1
    /\ (CachedToken.used info = 0 ->
        CachedToken.used (CachedToken.use info) = 1)
    /\ idb w' = <["awa-tokens" := cache']> (idb w)
    /\ idbWrites w' = ("awa-tokens", cache') :: idbWrites w.
Proof.
  intros cache cache' Hinfo Hvalid.
  eexists. split.
  - rewrite getAwaToken_run. fold cache. rewrite Hinfo. simpl.
    rewrite Hvalid. reflexivity.
  - repeat split.
    + subst cache'. by rewrite lookup_insert_eq.
    + simpl. intros ->. reflexivity.
Qed.

(** C5.  [getAwaToken] throws exactly when a fresh token is needed and
    either the token request fails or the record it yields is invalid.
    When the request fails, the thrown value is the [AWA.FailedToken]
    error wrapping the request's error.  When the record is invalid, it
    is the [AWA.FailedToken] error whose message argument is the note
    expression of the source evaluated on the stored record, which is the
    response's [developerNote]; on no record at all that expression is
    the literal ['no response']. *)
Theorem getAwaToken_throws account action storeId item w :
  let cache := effectiveCache w in
  let req := TokenRequest.mk account action storeId item in
  let settled := fst (requestAdvancedWriteActionToken req (now w)) in
  let outcome := snd (requestAdvancedWriteActionToken req (now w)) in
  let result := fst (getAwaToken account action storeId item w) in
  ((exists e, result = inl e) <->
     needsToken (now w) (cache !! action) = true
     /\ ((exists cause, outcome = inl cause)
         \/ exists response,
              outcome = inr response
              /\ tokenValid settled (CachedToken.fresh response) = false))
  /\ (forall cause,
        needsToken (now w) (cache !! action) = true ->
        outcome = inl cause ->
        result = inl (withError (DimError "AWA.FailedToken" None) cause))
  /\ (forall response,
        needsToken (now w) (cache !! action) = true ->
        outcome = inr response ->
        tokenValid settled (CachedToken.fresh response) = false ->
        result
        = inl (DimError "AWA.FailedToken"
                 (Some (failureNote (Some (CachedToken.fresh response)))))
        /\ failureNote (Some (CachedToken.fresh response))
           = AwaAuthorizationResult.developerNote response)
  /\ failureNote None = "no response".
Proof.
  intros cache req settled outcome result.
  subst result settled outcome. rewrite getAwaToken_run. fold cache req.
  assert (Hcached : needsToken (now w) (cache !! action) = false ->
                    exists i, cache !! action = Some i).
  { destruct (cache !! action); [eauto|done]. }
  destruct (needsToken (now w) (cache !! action)) eqn:Hneeds; cycle 1.
  { (* a valid cached record: nothing is thrown *)
    destruct Hcached as [i ->]; [done|]. cbn [fst].
    split; [|split; [|split]].
    - split; [by intros [? [=]] | by intros [[=] _]].
    - by intros c [=].
    - by intros r [=].
    - reflexivity. }
  clear Hcached.
  destruct (requestAdvancedWriteActionToken req (now w))
    as [settled [cause|response]] eqn:Hreq; cbn [fst snd].
  - (* the request fails *)
    cbn [fst]. split; [|split; [|split]].
    + split; [intros _; split; [done|left; eauto] | eauto].
    + by intros c _ [= <-].
    + by intros r _ [=].
    + reflexivity.
  - (* the request resolves *)
    destruct (tokenValid settled (CachedToken.fresh response)) eqn:Hvalid;
      cbn [fst]; (split; [|split; [|split]]).
    + split; [by intros [? [=]]|].
      intros [_ [[? [=]]|(r & [= <-] & ?)]]. congruence.
    + by intros c _ [=].
    + intros r _ [= <-] ?. congruence.
    + reflexivity.
    + split; [intros _; split; [done|right; eauto] | eauto].
    + by intros c _ [=].
    + intros r _ [= <-] _. split; reflexivity.
    + reflexivity.
Qed.

(** C10.  Whenever [getAwaToken] throws, IndexedDB is as it was before
    the call and no [set] has been performed; and when the token request
    had resolved, the in-memory cache already holds the record just
    obtained, with used count 0, which is invalid. *)
Theorem getAwaToken_failure_no_write account action storeId item w e w' :
  let cache := effectiveCache w in
  let req := TokenRequest.mk account action storeId item in
  getAwaToken account action storeId item w = (inl e, w') ->
  idb w' = idb w
  /\ idbWrites w' = idbWrites w
  /\ (forall settled response,
        requestAdvancedWriteActionToken req (now w) = (settled, inr response) ->
        awaCache w' = Some (<[action := CachedToken.fresh response]> cache)
        /\ (<[action := CachedToken.fresh response]> cache) !! action
           = Some (CachedToken.fresh response)
        /\ tokenValid settled (CachedToken.fresh response) = false).
Proof.
  intros cache req. rewrite getAwaToken_run. fold cache req.
  destruct (needsToken (now w) (cache !! action)) eqn:Hneeds.
  - destruct (requestAdvancedWriteActionToken req (now w))
      as [settled [cause|response]] eqn:Hreq.
    + intros [= <- <-]. split; [done|]. split; [done|].
      intros settled' response' [=].
    + destruct (tokenValid settled (CachedToken.fresh response)) eqn:Hvalid;
        [done|].
      intros [= <- <-]. split; [done|]. split; [done|].
      intros settled' response' [= <- <-].
      split; [done|]. split; [|done]. by rewrite lookup_insert_eq.
  - destruct (cache !! action) as [i|] eqn:Hi; [done|].
    simpl in Hneeds. done.
Qed.

(** What [getAwaToken] never touches, and the notifications it can add:
    none, or the one confirmation prompt. *)
Lemma getAwaToken_frame account action storeId item w outcome w' :
  getAwaToken account action storeId item w = (outcome, w') ->
  errorLogs w' = errorLogs w
  /\ dispatched w' = dispatched w
  /\ state w' = state w
  /\ plugRequests w' = plugRequests w
  /\ itemFetches w' = itemFetches w
  /\ (notifications w' = notifications w
      \/ notifications w' = confirmNotification :: notifications w).
Proof.
  rewrite getAwaToken_run.
  destruct (needsToken _ _).
  - destruct (requestAdvancedWriteActionToken _ _) as [settled [cause|response]].
    + intros [= <- <-]. simpl. auto 10.
    + destruct (tokenValid _ _); intros [= <- <-]; simpl; auto 10.
  - destruct (effectiveCache w !! action); intros [= <- <-];
      destruct w; simpl; auto 10.
Qed.

End GetAwaTokenFacts.

(** ** Item refresh and plug insertion *)

Section WorkflowFacts.

Context {env : Env}.

Implicit Types (w : World) (item : DimItem.t) (socket : DimSocket.t).

(** C9.  [refreshItemAfterAWA] always completes and dispatches exactly
    one [awaItemChanged] action.  When the item is fetched, the action
    carries the change response with its [item] replaced by the fetched
    record and its other fields as they were, and nothing is logged;
    when the fetch throws, the error is logged and the action carries the
    original change response. *)
Theorem refreshItemAfterAWA_spec item
    (response : DestinyItemChangeResponse.t DestinyItemResponse DestinyItemComponent)
    w :
  exists w' dispatchedChanges,
    refreshItemAfterAWA item response w = (inr tt, w')
    /\ dispatched w'
       = {| changes := dispatchedChanges; defs := d2Manifest (state w);
            changedBuckets := buckets (state w) |} :: dispatched w
    /\ match getSingleItem (DimItem.id item) (currentAccount (state w)) with
       | inr itemInfo =>
           DestinyItemChangeResponse.item dispatchedChanges = itemInfo
           /\ DestinyItemChangeResponse.addedInventoryItems dispatchedChanges
              = DestinyItemChangeResponse.addedInventoryItems response
           /\ DestinyItemChangeResponse.removedInventoryItems dispatchedChanges
              = DestinyItemChangeResponse.removedInventoryItems response
           /\ errorLogs w' = errorLogs w
       | inl e =>
           dispatchedChanges = response
           /\ errorLogs w'
              = Build_LogEntry "AWA"
                  "Unable to refresh item, falling back on AWA response" item e
                :: errorLogs w
       end.
Proof.
  unfold refreshItemAfterAWA. run_m.
  destruct (getSingleItem (DimItem.id item) (currentAccount (state w)))
    as [e|itemInfo]; run_m; eexists _, _; repeat split.
Qed.

Lemma refreshItemAfterAWA_notifications item response w :
  notifications (snd (refreshItemAfterAWA item response w)) = notifications w.
Proof.
  unfold refreshItemAfterAWA. run_m.
  destruct (getSingleItem _ _); reflexivity.
Qed.

(** C8.  When token acquisition throws, or the token is obtained and the
    plug-insertion call throws, [insertPlug] completes without throwing;
    the error is logged, exactly one notification of type error is shown,
    whose body is the error's message, and nothing is dispatched. *)
Theorem insertPlug_failure item socket (plugItemHash : Z) w e w1 :
  let st := state w in
  let acquire :=
    getAwaToken (currentAccount st) InsertPlugs (actingStoreId st item)
                (Some item) in
  (acquire w = (inl e, w1)
   \/ exists actionToken,
        acquire w = (inr actionToken, w1)
        /\ insertSocketPlug (plugRequest st item socket plugItemHash actionToken)
           = inl e) ->
  exists w2 shown,
    insertPlug item socket plugItemHash w = (inr tt, w2)
    /\ errorLogs w2
       = Build_LogEntry "AWA" "Couldn't insert plug" item e :: errorLogs w
    /\ notifications w2 = shown ++ notifications w
    /\ List.filter isErrorNotification shown = [plugErrorNotification e]
    /\ dispatched w2 = dispatched w.
Proof.
  intros st acquire Hfail.
  assert (exists outcome, acquire w = (outcome, w1)) as [outcome Hrun].
  { destruct Hfail as [?|(? & ? & _)]; eauto. }
  destruct (getAwaToken_frame _ _ _ _ _ _ _ Hrun)
    as (Hlogs & Hacts & _ & _ & _ & Hshown).
  assert (exists prompt,
             notifications w1 = prompt ++ notifications w
             /\ List.filter isErrorNotification prompt = []) as (prompt & Hprompt & Hinfo).
  { destruct Hshown as [->| ->]; [by exists []|by exists [confirmNotification]]. }
  exists (snd (insertPlug item socket plugItemHash w)),
         (plugErrorNotification e :: prompt).
  unfold insertPlug. run_m. fold st. fold acquire.
  destruct Hfail as [Hthrow|(actionToken & Hok & Hplug)].
  - rewrite Hthrow. cbn [snd]. world_simpl.
    rewrite Hlogs, Hacts, Hprompt. cbn [List.filter app].
    rewrite Hinfo. repeat split.
  - rewrite Hok. unfold plugRequest in Hplug. fold st in Hplug.
    rewrite Hplug. cbn [snd]. world_simpl.
    rewrite Hlogs, Hacts, Hprompt. cbn [List.filter app].
    rewrite Hinfo. repeat split.
Qed.

End WorkflowFacts.

(** ** The workflows run on concrete worlds *)

Section Examples.

Import Demo.

Lemma getAwaToken_fresh_witness :
  exists w',
    @getAwaToken (granting 0 None) account InsertPlugs storeId (Some sword)
      (startGranting 0 None ∅)
    = (inr "token-1", w')
    /\ length (notifications w') = 1%nat
    /\ (exists cache, idb w' !! "awa-tokens" = Some cache
                      /\ CachedToken.used <$> cache !! InsertPlugs = Some 1).
Proof.
  destruct (@getAwaToken_fresh (granting 0 None) account InsertPlugs storeId
              (Some sword) (startGranting 0 None ∅) 1735732801000
              (approved 0 None))
    as (w' & Hrun & Hshown & _ & _ & _ & Hentry & Hidb & _).
  - left. reflexivity.
  - reflexivity.
  - reflexivity.
  - exists w'. split; [exact Hrun|]. split; [by rewrite Hshown|].
    eexists. rewrite Hidb, lookup_insert_eq. split; [reflexivity|].
    by rewrite Hentry.
Defined.

(** A record that expired in 2020 is replaced like a missing one. *)
Example getAwaToken_expired_record :
  let stale := CachedToken.mk (approved 0 (Some "2020-01-01T00:00:00.000Z")) 3 in
  let run := @getAwaToken (granting 0 None) account InsertPlugs storeId
               (Some sword)
               (startGranting 0 None {["awa-tokens" := {[InsertPlugs := stale]}]}) in
  fst run = inr "token-1"
  /\ length (tokenRequests (snd run)) = 1%nat
  /\ length (notifications (snd run)) = 1%nat.
Proof. vm_compute. repeat split. Qed.


Lemma getAwaToken_cached_witness :
  let unused := CachedToken.mk (approved 0 None) 0 in
  exists w',
    @getAwaToken (granting 0 None) account InsertPlugs storeId (Some sword)
      (startGranting 0 None {["awa-tokens" := {[InsertPlugs := unused]}]})
    = (inr "token-1", w')
    /\ notifications w' = []
    /\ tokenRequests w' = []
    /\ (exists cache, idb w' !! "awa-tokens" = Some cache
                      /\ CachedToken.used <$> cache !! InsertPlugs = Some 1).
Proof.
  intros unused.
  destruct (@getAwaToken_cached (granting 0 None) account InsertPlugs storeId
              (Some sword)
              (startGranting 0 None {["awa-tokens" := {[InsertPlugs := unused]}]})
              unused)
    as (w' & Hrun & Hshown & Hreqs & _ & Hentry & _ & _ & Hidb & _).
  - reflexivity.
  - reflexivity.
  - exists w'. split; [exact Hrun|]. split; [exact Hshown|].
    split; [exact Hreqs|].
    eexists. rewrite Hidb, lookup_insert_eq. split; [reflexivity|].
    by rewrite Hentry.
Defined.

Lemma getAwaToken_throws_witness :
  fst (@getAwaToken refusing account InsertPlugs storeId (Some sword)
         startRefusing)
  = inl (Dim "AWA.FailedToken" (Some "user said no"))
  /\ fst (@getAwaToken offline account InsertPlugs storeId (Some sword)
            startOffline)
     = inl (Caused (Dim "AWA.FailedToken" None) (Thrown "network down")).
Proof.
  split.
  - destruct (@getAwaToken_throws refusing account InsertPlugs storeId
                (Some sword) startRefusing) as (_ & _ & Hinvalid & _).
    destruct (Hinvalid rejected) as [Hrun _]; [reflexivity..|].
    exact Hrun.
  - destruct (@getAwaToken_throws offline account InsertPlugs storeId
                (Some sword) startOffline) as (_ & Hfails & _).
    apply (Hfails (Thrown "network down")); reflexivity.
Defined.

Lemma getAwaToken_failure_no_write_witness :
  let run := @getAwaToken refusing account InsertPlugs storeId (Some sword)
               startRefusing in
  idb (snd run) = ∅
  /\ idbWrites (snd run) = []
  /\ awaCache (snd run) = Some {[InsertPlugs := CachedToken.fresh rejected]}.
Proof.
  intros run.
  destruct (@getAwaToken_failure_no_write refusing account InsertPlugs storeId
              (Some sword) startRefusing
              (Dim "AWA.FailedToken" (Some "user said no")) (snd run))
    as (Hidb & Hwrites & Hcache).
  - reflexivity.
  - destruct (Hcache 1735732801000 rejected) as (Hheld & _); [reflexivity|].
    rewrite Hidb, Hwrites, Hheld. repeat split.
Defined.

Lemma insertPlug_failure_witness :
  let run := @insertPlug plugFails sword socket 42 startPlugFails in
  fst run = inr tt
  /\ dispatched (snd run) = []
  /\ length (errorLogs (snd run)) = 1%nat.
Proof.
  intros run.
  destruct (@insertPlug_failure plugFails sword socket 42 startPlugFails
              (Thrown "plug refused")
              (snd (@getAwaToken plugFails account InsertPlugs storeId
                      (Some sword) startPlugFails)))
    as (w2 & shown & Hrun & Hlogs & _ & _ & Hacts).
  - right. exists "token-1". split; reflexivity.
  - subst run. rewrite Hrun. cbn [fst snd]. rewrite Hlogs, Hacts.
    repeat split.
Defined.

(** The plug call is never sent when the user rejects the request, and
    the two notifications are the prompt and the error. *)
Example insertPlug_rejected :
  let run := @insertPlug refusing sword socket 42 startRefusing in
  fst run = inr tt
  /\ map Notification.type (notifications (snd run)) = [NotifyError; NotifyInfo]
  /\ map Notification.body (notifications (snd run))
     = ["user said no"; "AWA.ConfirmDescription"]
  /\ plugRequests (snd run) = []
  /\ dispatched (snd run) = [].
Proof. vm_compute. repeat split. Qed.

(** A successful insertion dispatches the fetched item once. *)
Example insertPlug_success :
  let run := @insertPlug (granting 0 None) sword socket 42
               (startGranting 0 None ∅) in
  fst run = inr tt
  /\ map (@changes (granting 0 None)) (dispatched (snd run))
     = [DestinyItemChangeResponse.mk "fresh" ["added"] ["removed"]]
  /\ map InsertPlugRequest.characterId (plugRequests (snd run)) = [storeId]
  /\ errorLogs (snd run) = [].
Proof. vm_compute. repeat split. Qed.

(** A failed fetch still dispatches, with the stale item. *)
Example refreshItemAfterAWA_fetch_fails :
  let run := @refreshItemAfterAWA fetchFails sword plugged startFetchFails in
  fst run = inr tt
  /\ map (@changes fetchFails) (dispatched (snd run)) = [plugged]
  /\ length (errorLogs (snd run)) = 1%nat.
Proof. vm_compute. repeat split. Qed.

(** C2, at work.  A token granted for one use is handed out twice: the
    second call finds used = 1 = quota, accepts the record and sends no
    request; only the third call asks for a new token. *)
Example quota_of_one_is_used_twice :
  let call := @getAwaToken (granting 1 None) account InsertPlugs storeId
                (Some sword) in
  let first := call (startGranting 1 None ∅) in
  let second := call (snd first) in
  let third := call (snd second) in
  fst first = inr "token-1"
  /\ fst second = inr "token-1"
  /\ length (tokenRequests (snd second)) = 1%nat
  /\ (CachedToken.used <$> (effectiveCache (snd second) !! InsertPlugs)) = Some 2
  /\ length (tokenRequests (snd third)) = 2%nat.
Proof. vm_compute. repeat split. Qed.

End Examples.

(** * Further properties of the code *)

(** ** The adapter and the selectors *)

Section AdapterMore.

Context {P : Type}.

Implicit Types (loadout : DimApi.Loadout.t P) (item : DimApi.LoadoutItem.t).

Lemma converted_item_filled item (equipped : bool) :
  let converted := Loadouts.convertDimApiLoadoutItemToLoadoutItem item equipped in
  LoadoutItem.id converted <> "" /\ LoadoutItem.amount converted <> 0.
Proof.
  destruct item as [[[|c s]|] h [a|]]; simpl; split; try done.
  all: by destruct (Z.eqb_spec a 0).
Qed.

(** X1.  No item of a converted loadout has an empty id or a zero amount,
    whatever the persisted loadout holds. *)
Theorem converted_items_filled loadout :
  Forall (fun converted =>
            LoadoutItem.id converted <> "" /\ LoadoutItem.amount converted <> 0)
         (Loadout.items (Loadouts.convertDimApiLoadoutToLoadout loadout)).
Proof.
  simpl. apply Forall_app. split; apply Forall_forall.
  all: intros converted (item & -> & _)%list_elem_of_fmap.
  all: apply converted_item_filled.
Qed.

Lemma filter_map_flag (items : list DimApi.LoadoutItem.t) (flag keep : bool) :
  List.filter (fun converted => eqb (LoadoutItem.equipped converted) keep)
    (map (fun i => Loadouts.convertDimApiLoadoutItemToLoadoutItem i flag) items)
  = if eqb flag keep
    then map (fun i => Loadouts.convertDimApiLoadoutItemToLoadoutItem i flag) items
    else [].
Proof.
  induction items as [|item items IH]; simpl.
  - by destruct (eqb flag keep).
  - rewrite IH. by destruct (eqb flag keep).
Qed.

(** X2.  The equipped flag alone recovers the two persisted sequences:
    the items marked equipped are exactly the converted equipped items, in
    order, and the items not marked equipped are exactly the converted
    unequipped items, in order. *)
Theorem converted_items_split loadout :
  let items := Loadout.items (Loadouts.convertDimApiLoadoutToLoadout loadout) in
  List.filter (fun converted => eqb (LoadoutItem.equipped converted) true) items
  = map (fun i => Loadouts.convertDimApiLoadoutItemToLoadoutItem i true)
        (DimApi.Loadout.equipped loadout)
  /\ List.filter (fun converted => eqb (LoadoutItem.equipped converted) false) items
     = map (fun i => Loadouts.convertDimApiLoadoutItemToLoadoutItem i false)
           (DimApi.Loadout.unequipped loadout).
Proof.
  simpl. rewrite !List.filter_app, !filter_map_flag. simpl.
  by rewrite app_nil_r.
Qed.

(** X3.  Without a profile [loadoutsSelector] gives no loadout; with one
    it gives exactly one loadout per entry of the profile, in enumeration
    order: the [k]-th result is the conversion of the [k]-th stored
    loadout, keeps its id and has as many items as that loadout has
    equipped and unequipped items together. *)
Theorem loadoutsSelector_spec (profile : Selectors.Profile P) :
  Selectors.loadoutsSelector (P := P) None = []
  /\ length (Selectors.loadoutsSelector (Some profile))
     = length (Selectors.loadouts profile)
  /\ (forall (k : nat) key loadout,
        Selectors.loadouts profile !! k = Some (key, loadout) ->
        exists converted,
          Selectors.loadoutsSelector (Some profile) !! k = Some converted
          /\ converted = Loadouts.convertDimApiLoadoutToLoadout loadout
          /\ Loadout.id converted = DimApi.Loadout.id loadout
          /\ length (Loadout.items converted)
             = (length (DimApi.Loadout.equipped loadout)
                + length (DimApi.Loadout.unequipped loadout))%nat).
Proof.
  split; [reflexivity|]. split.
  - unfold Selectors.loadoutsSelector, Selectors.values. by rewrite !length_map.
  - intros k key loadout Hk. eexists. split; [|split; [reflexivity|split]].
    + unfold Selectors.loadoutsSelector, Selectors.values.
      by rewrite !list_lookup_fmap, Hk.
    + reflexivity.
    + apply convert_items_length.
Qed.

(** X4.  [previousLoadoutSelector] answers nothing exactly when the store
    has no stack or an empty one; otherwise it answers the last loadout of
    the store's stack, and the stacks of other stores do not matter. *)
Theorem previousLoadoutSelector_spec (state : Selectors.LoadoutsState P)
    (storeId : string) :
  (Selectors.previousLoadoutSelector state storeId = None <->
     Selectors.previousLoadouts state !! storeId = None
     \/ Selectors.previousLoadouts state !! storeId = Some [])
  /\ (forall stack top,
        Selectors.previousLoadouts state !! storeId = Some (stack ++ [top]) ->
        Selectors.previousLoadoutSelector state storeId = Some top)
  /\ (forall other stack,
        other <> storeId ->
        Selectors.previousLoadoutSelector
          {| Selectors.previousLoadouts :=
               <[other := stack]> (Selectors.previousLoadouts state) |}
          storeId
        = Selectors.previousLoadoutSelector state storeId).
Proof.
  unfold Selectors.previousLoadoutSelector. split; [|split].
  - destruct (Selectors.previousLoadouts state !! storeId) as [stack|]; [|tauto].
    rewrite last_None. split; [intros ->; auto|]. by intros [?|[= ->]].
  - intros stack top ->. by rewrite last_snoc.
  - intros other stack Hne. simpl. by rewrite lookup_insert_ne.
Qed.

End AdapterMore.

(** ** More on the validity rule *)

Section TokenValidMore.

Context {env : Env}.

(** X5.  A record whose [validUntil] is a non-empty string that is not a
    date strictly after the current time, either because it does not parse
    or because the date it gives is now or earlier, is invalid whatever its
    quota and selection. *)
Theorem tokenValid_lapsed (today : Z) (info : CachedToken.t) (s : string) :
  CachedToken.validUntil info = Some s ->
  s <> "" ->
  (forall expiry, parseDate s = Some expiry -> expiry <= today) ->
  tokenValid today info = false.
Proof.
  intros Hs Hne Hpast. apply not_true_is_false.
  rewrite tokenValid_iff, truthyString_false, dateInFuture_iff.
  intros [[[?|?]|(s' & expiry & ? & Hparse & ?)] _]; simplify_eq.
  specialize (Hpast _ Hparse). lia.
Qed.

(** X6.  Validity only lapses: a record valid at some time with some used
    count is valid at every earlier time and with every smaller used
    count. *)
Theorem tokenValid_earlier (today later used' : Z) (info : CachedToken.t) :
  tokenValid later info = true ->
  today <= later ->
  used' <= CachedToken.used info ->
  tokenValid today (CachedToken.mk (CachedToken.result info) used') = true.
Proof.
  rewrite !tokenValid_iff, !dateInFuture_iff.
  intros (Hexpiry & Hquota & Hsel) Htime Hused.
  unfold CachedToken.validUntil, CachedToken.maximumNumberOfUses,
    CachedToken.userSelection in *. simpl.
  split; [|split; [lia|done]].
  destruct Hexpiry as [?|(s & expiry & ? & ? & ?)]; [by left|].
  right. exists s, expiry. repeat split; [done..|lia].
Qed.

End TokenValidMore.

(** ** More on the token broker *)

Section BrokerMore.

Context {env : Env}.

Implicit Types (w : World) (account : DestinyAccount.t) (action : AwaType)
  (storeId : string) (item : option DimItem.t).

Lemma effectiveCache_loaded w cache :
  awaCache w = Some cache -> effectiveCache w = cache.
Proof. unfold effectiveCache. by intros ->. Qed.

(** What a successful call leaves behind. *)
Lemma getAwaToken_success_entry account action storeId item w token w' :
  getAwaToken account action storeId item w = (inr token, w') ->
  exists i,
    let cache' := <[action := CachedToken.use i]> (effectiveCache w) in
    awaCache w' = Some cache'
    /\ idb w' = <["awa-tokens" := cache']> (idb w)
    /\ CachedToken.actionToken i = token
    /\ tokenValid (now w') i = true.
Proof.
  rewrite getAwaToken_run.
  destruct (needsToken (now w) (effectiveCache w !! action)) eqn:Hneeds.
  - destruct (requestAdvancedWriteActionToken _ _) as [settled [cause|response]];
      [done|].
    destruct (tokenValid settled (CachedToken.fresh response)) eqn:Hvalid; [|done].
    intros [= <- <-]. exists (CachedToken.fresh response). by repeat split.
  - destruct (effectiveCache w !! action) as [i|] eqn:Hi; [|done].
    intros [= <- <-]. exists i. simpl in Hneeds.
    apply negb_false_iff in Hneeds. by repeat split.
Qed.

(** X7.  Whatever the outcome of a call, the module cache is loaded
    afterwards, and its entries for every other action are the ones the
    cache held before: no entry is removed and only the requested action's
    entry is written. *)
Theorem getAwaToken_other_actions account action storeId item w outcome w'
    (other : AwaType) :
  getAwaToken account action storeId item w = (outcome, w') ->
  other <> action ->
  exists cache',
    awaCache w' = Some cache'
    /\ cache' !! other = effectiveCache w !! other.
Proof.
  rewrite getAwaToken_run. intros Hrun Hother.
  destruct (needsToken _ _).
  - destruct (requestAdvancedWriteActionToken _ _) as [settled [cause|response]].
    + injection Hrun as <- <-. by eexists.
    + destruct (tokenValid _ _); injection Hrun as <- <-; eexists;
        (split; [reflexivity|]); by rewrite lookup_insert_ne.
  - destruct (effectiveCache w !! action); injection Hrun as <- <-; eexists;
      (split; [reflexivity|]); [by rewrite lookup_insert_ne|done].
Qed.


(** X9.  The confirmation prompt and the token request go together: a
    call that needs a fresh token shows the prompt once and sends one
    request; a call that finds a valid record shows nothing, sends nothing
    and leaves the clock alone.  This holds whether the call then returns
    or throws. *)
Theorem getAwaToken_prompt_with_request account action storeId item w outcome w' :
  getAwaToken account action storeId item w = (outcome, w') ->
  if needsToken (now w) (effectiveCache w !! action)
  then notifications w' = confirmNotification :: notifications w
       /\ tokenRequests w'
          = TokenRequest.mk account action storeId item :: tokenRequests w
  else notifications w' = notifications w
       /\ tokenRequests w' = tokenRequests w
       /\ now w' = now w.
Proof.
  rewrite getAwaToken_run.
  destruct (needsToken _ _).
  - destruct (requestAdvancedWriteActionToken _ _) as [settled [cause|response]];
      [|destruct (tokenValid _ _)]; by intros [= <- <-].
  - destruct (effectiveCache w !! action); intros [= <- <-]; by destruct w.
Qed.

(** A call that finds a valid record. *)
Lemma getAwaToken_reuse_entry account action storeId item w i :
  effectiveCache w !! action = Some i ->
  tokenValid (now w) i = true ->
  exists w',
    getAwaToken account action storeId item w = (inr (CachedToken.actionToken i), w')
    /\ notifications w' = notifications w
    /\ tokenRequests w' = tokenRequests w.
Proof.
  intros Hentry Hvalid. rewrite getAwaToken_run, Hentry. cbn [needsToken].
  rewrite Hvalid. cbn [negb]. eexists. split; [reflexivity|]. by destruct w.
Qed.

(** A record with quota 0 and no expiry stays valid once used, at any
    time. *)
Lemma tokenValid_use_forever (today later : Z) (i : CachedToken.t) :
  tokenValid today i = true ->
  CachedToken.maximumNumberOfUses i = 0 ->
  Js.truthyString (CachedToken.validUntil i) = false ->
  tokenValid later (CachedToken.use i) = true.
Proof.
  rewrite !tokenValid_iff. intros (_ & _ & Hsel) Hquota Hexpiry.
  unfold CachedToken.use, CachedToken.maximumNumberOfUses,
    CachedToken.validUntil, CachedToken.userSelection in *. simpl. auto.
Qed.

(** X10.  Tokens are cached per action only.  Once a call has returned a
    token whose record has quota 0 and no expiry, every later call for the
    same action on that cache returns the same token without prompt or
    request, at whatever time and for whatever account, store and item it
    is made. *)
Theorem getAwaToken_unlimited_reuse account action storeId item w token w'
    account2 storeId2 item2 (later : World) :
  getAwaToken account action storeId item w = (inr token, w') ->
  awaCache later = awaCache w' ->
  (forall i, effectiveCache w' !! action = Some i ->
             CachedToken.maximumNumberOfUses i = 0
             /\ Js.truthyString (CachedToken.validUntil i) = false) ->
  exists later',
    getAwaToken account2 action storeId2 item2 later = (inr token, later')
    /\ notifications later' = notifications later
    /\ tokenRequests later' = tokenRequests later.
Proof.
  intros (i & Hcache & _ & Htoken & Hvalid)%getAwaToken_success_entry
    Hsame Hunlimited.
  rewrite Hcache in Hsame.
  apply effectiveCache_loaded in Hcache, Hsame.
  assert (effectiveCache w' !! action = Some (CachedToken.use i)) as Hentry.
  { by rewrite Hcache, lookup_insert_eq. }
  destruct (Hunlimited _ Hentry) as [Hquota Hexpiry].
  rewrite <- Htoken.
  apply (getAwaToken_reuse_entry _ _ _ _ later (CachedToken.use i)).
  - by rewrite Hsame, <- Hcache.
  - by apply (tokenValid_use_forever (now w')).
Qed.

(** X11.  Once the module cache is loaded, IndexedDB is never read again:
    the outcome of a call and the cache it leaves do not depend on what
    IndexedDB holds. *)
Theorem getAwaToken_ignores_store_once_loaded account action storeId item w
    (cache : AwaCache) (store : gmap string AwaCache) :
  awaCache w = Some cache ->
  let run := getAwaToken account action storeId item in
  fst (run (withIdb store w)) = fst (run w)
  /\ awaCache (snd (run (withIdb store w))) = awaCache (snd (run w)).
Proof.
  intros Hloaded run. subst run. rewrite !getAwaToken_run.
  assert (effectiveCache (withIdb store w) = effectiveCache w) as ->.
  { unfold effectiveCache. simpl. by rewrite Hloaded. }
  cbn [withIdb now].
  destruct (needsToken _ _).
  - destruct (requestAdvancedWriteActionToken _ _) as [settled [cause|response]];
      [|destruct (tokenValid _ _)]; done.
  - destruct (effectiveCache w !! action); done.
Qed.


(** X19.  What [set] wrote is what [get] loads: after a call has returned
    a token whose record has quota 0 and no expiry, a page that starts with
    an unloaded module cache and the same value under ['awa-tokens'] in
    IndexedDB returns the same token without prompt or request. *)
Theorem getAwaToken_survives_reload account action storeId item w token w'
    account2 storeId2 item2 (reloaded : World) :
  getAwaToken account action storeId item w = (inr token, w') ->
  awaCache reloaded = None ->
  idb reloaded !! "awa-tokens" = idb w' !! "awa-tokens" ->
  (forall i, effectiveCache w' !! action = Some i ->
             CachedToken.maximumNumberOfUses i = 0
             /\ Js.truthyString (CachedToken.validUntil i) = false) ->
  exists reloaded',
    getAwaToken account2 action storeId2 item2 reloaded = (inr token, reloaded')
    /\ notifications reloaded' = notifications reloaded
    /\ tokenRequests reloaded' = tokenRequests reloaded.
Proof.
  intros (i & Hcache & Hidb & Htoken & Hvalid)%getAwaToken_success_entry
    Hunloaded Hstored Hunlimited.
  assert (effectiveCache reloaded = effectiveCache w') as Hsame.
  { unfold effectiveCache.
    by rewrite Hunloaded, Hstored, Hcache, Hidb, lookup_insert_eq. }
  apply effectiveCache_loaded in Hcache.
  assert (effectiveCache w' !! action = Some (CachedToken.use i)) as Hentry.
  { by rewrite Hcache, lookup_insert_eq. }
  destruct (Hunlimited _ Hentry) as [Hquota Hexpiry].
  rewrite <- Htoken.
  apply (getAwaToken_reuse_entry _ _ _ _ reloaded (CachedToken.use i)).
  - by rewrite Hsame.
  - by apply (tokenValid_use_forever (now w')).
Qed.

End BrokerMore.

(** ** More on item refresh and plug insertion *)

Section WorkflowMore.

Context {env : Env}.

Implicit Types (w : World) (item : DimItem.t) (socket : DimSocket.t).

(** The whole effect of [refreshItemAfterAWA]. *)
Lemma refreshItemAfterAWA_run item
    (response : DestinyItemChangeResponse.t DestinyItemResponse DestinyItemComponent)
    w :
  exists dispatchedChanges logged,
    refreshItemAfterAWA item response w
    = (inr tt,
       {| awaCache := awaCache w; idb := idb w; idbWrites := idbWrites w;
          now := now w; notifications := notifications w;
          tokenRequests := tokenRequests w; plugRequests := plugRequests w;
          itemFetches := DimItem.id item :: itemFetches w;
          errorLogs := logged ++ errorLogs w; state := state w;
          dispatched :=
            {| changes := dispatchedChanges; defs := d2Manifest (state w);
               changedBuckets := buckets (state w) |} :: dispatched w |}).
Proof.
  unfold refreshItemAfterAWA. run_m.
  destruct (getSingleItem (DimItem.id item) (currentAccount (state w))) as [e|info];
    run_m.
  - by eexists _, [_].
  - by eexists _, [].
Qed.

(** X13.  [refreshItemAfterAWA] fetches the item once, by its id, and
    touches nothing of the token broker: the cache, IndexedDB, the token
    and plug requests and the notifications are as before. *)
Theorem refreshItemAfterAWA_frame item
    (response : DestinyItemChangeResponse.t DestinyItemResponse DestinyItemComponent)
    w :
  let w' := snd (refreshItemAfterAWA item response w) in
  itemFetches w' = DimItem.id item :: itemFetches w
  /\ notifications w' = notifications w
  /\ awaCache w' = awaCache w
  /\ idb w' = idb w
  /\ idbWrites w' = idbWrites w
  /\ tokenRequests w' = tokenRequests w
  /\ plugRequests w' = plugRequests w.
Proof.
  destruct (refreshItemAfterAWA_run item response w) as (c & l & ->).
  by repeat split.
Qed.

(** X14.  [insertPlug] is a failure boundary: whatever the token request,
    the plug call and the item fetch do, it completes without throwing. *)
Theorem insertPlug_never_throws item socket (plugItemHash : Z) w :
  fst (insertPlug item socket plugItemHash w) = inr tt.
Proof.
  unfold insertPlug. run_m.
  destruct (getAwaToken _ _ _ _ w) as [[e|actionToken] w1]; [done|].
  destruct (insertSocketPlug _) as [e|response]; [done|].
  match goal with
  | |- context [refreshItemAfterAWA item response ?w0] =>
      destruct (refreshItemAfterAWA_run item response w0) as (c & l & ->)
  end.
  done.
Qed.

(** X15.  When the token is obtained and the plug call resolves,
    [insertPlug] sends exactly one plug request, carrying that token, the
    item's id and, as character, the current store for an item in the vault
    and the item's owner otherwise; it shows no notification of its own,
    fetches the item once and dispatches exactly one action, whose changes
    are the response with the fetched item, or the response itself when the
    fetch throws. *)
Theorem insertPlug_success_effects item socket (plugItemHash : Z) w actionToken w1 response :
  let st := state w in
  let request := plugRequest st item socket plugItemHash actionToken in
  getAwaToken (currentAccount st) InsertPlugs (actingStoreId st item) (Some item) w
  = (inr actionToken, w1) ->
  insertSocketPlug request = inr response ->
  exists w2,
    insertPlug item socket plugItemHash w = (inr tt, w2)
    /\ plugRequests w2 = request :: plugRequests w
    /\ InsertPlugRequest.actionToken request = actionToken
    /\ InsertPlugRequest.itemInstanceId request = DimItem.id item
    /\ InsertPlugRequest.characterId request
       = (if decide (DimItem.owner item = "vault")
          then DimStore.id (currentStore st) else DimItem.owner item)
    /\ notifications w2 = notifications w1
    /\ itemFetches w2 = DimItem.id item :: itemFetches w
    /\ dispatched w2
       = {| changes :=
              match getSingleItem (DimItem.id item) (currentAccount st) with
              | inr itemInfo => DestinyItemChangeResponse.withItem response itemInfo
              | inl _ => response
              end;
            defs := d2Manifest st; changedBuckets := buckets st |}
         :: dispatched w.
Proof.
  intros st request Hacquire Hplug.
  destruct (getAwaToken_frame _ _ _ _ _ _ _ Hacquire)
    as (_ & Hacts & Hstate & Hplugs & Hfetches & _).
  assert (InsertPlugRequest.characterId request
          = if decide (DimItem.owner item = "vault")
            then DimStore.id (currentStore st) else DimItem.owner item) as Hchar.
  { subst request. simpl. unfold actingStoreId.
    destruct (String.eqb_spec (DimItem.owner item) "vault"); by case_decide. }
  destruct (getSingleItem (DimItem.id item) (currentAccount st)) eqn:Hfetch.
  all: eexists; split;
    [ unfold insertPlug; run_m; fold st; rewrite Hacquire;
      unfold plugRequest in request; fold st in request; fold request;
      rewrite Hplug; unfold refreshItemAfterAWA; run_m; rewrite Hstate; fold st;
      rewrite Hfetch; run_m; reflexivity
    | world_simpl; rewrite Hplugs, Hfetches, Hacts; repeat split; done ].
Qed.

(** X16.  When token acquisition throws, [insertPlug] sends no plug
    request and fetches no item. *)
Theorem insertPlug_token_failure_sends_nothing item socket (plugItemHash : Z)
    w e w1 :
  let st := state w in
  getAwaToken (currentAccount st) InsertPlugs (actingStoreId st item) (Some item) w
  = (inl e, w1) ->
  plugRequests (snd (insertPlug item socket plugItemHash w)) = plugRequests w
  /\ itemFetches (snd (insertPlug item socket plugItemHash w)) = itemFetches w.
Proof.
  intros st Hacquire.
  destruct (getAwaToken_frame _ _ _ _ _ _ _ Hacquire)
    as (_ & _ & _ & Hplugs & Hfetches & _).
  unfold insertPlug. run_m. fold st. rewrite Hacquire. cbn [snd]. world_simpl.
  by rewrite Hplugs, Hfetches.
Qed.


End WorkflowMore.

(** ** The further properties on concrete inputs *)

Section MoreExamples.

Import Demo.

Lemma loadoutsSelector_spec_witness :
  exists converted,
    Selectors.loadoutsSelector (Some profile) !! 1%nat = Some converted
    /\ Loadout.id converted = "loadout-2"
    /\ length (Loadout.items converted) = 1%nat.
Proof.
  destruct (loadoutsSelector_spec profile) as (_ & _ & Hentry).
  destruct (Hentry 1%nat "loadout-2"
              (DimApi.Loadout.mk "loadout-2" 2 "Raid" (Some true) []
                 [DimApi.LoadoutItem.mk (Some "") 40 (Some 0)] None))
    as (converted & Hk & _ & Hid & Hlen); [reflexivity|].
  exists converted. repeat split; [exact Hk|exact Hid|exact Hlen].
Defined.

Lemma previousLoadoutSelector_spec_witness :
  let older := Loadouts.convertDimApiLoadoutToLoadout apiLoadout in
  let newer := Loadout.mk "loadout-9" 0 "Previous" false [] (@None unit) in
  Selectors.previousLoadoutSelector
    {| Selectors.previousLoadouts := {[storeId := [older; newer]]} |} storeId
  = Some newer.
Proof.
  intros older newer.
  destruct (previousLoadoutSelector_spec
              {| Selectors.previousLoadouts := {[storeId := [older; newer]]} |}
              storeId) as (_ & Htop & _).
  apply (Htop [older] newer). reflexivity.
Defined.

Lemma tokenValid_lapsed_witness :
  @tokenValid (granting 0 None) 1735732800000
    (CachedToken.mk (approved 0 (Some "2020-01-01T00:00:00.000Z")) 0)
  = false
  /\ @tokenValid (granting 0 None) 1735732800000
       (CachedToken.mk (approved 0 (Some "tomorrow")) 0)
     = false.
Proof.
  split.
  - apply (@tokenValid_lapsed (granting 0 None) _ _ "2020-01-01T00:00:00.000Z");
      [reflexivity|discriminate|].
    intros expiry [= <-]. lia.
  - apply (@tokenValid_lapsed (granting 0 None) _ _ "tomorrow");
      [reflexivity|discriminate|].
    intros expiry [=].
Defined.

Lemma tokenValid_earlier_witness :
  @tokenValid (granting 0 None) 1735732800000
    (CachedToken.mk (approved 5 (Some "2030-01-01T00:00:00.000Z")) 2)
  = true.
Proof.
  apply (@tokenValid_earlier (granting 0 None) 1735732800000 1800000000000 2
           (CachedToken.mk (approved 5 (Some "2030-01-01T00:00:00.000Z")) 5));
    [reflexivity|lia|simpl; lia].
Defined.

Lemma tokenValid_over_quota_witness :
  @tokenValid (granting 0 None) 1735732800000
    (CachedToken.mk (approved 1 None) 2)
  = false.
Proof.
  apply (@tokenValid_over_quota (granting 0 None)); [discriminate|reflexivity].
Defined.

Lemma getAwaToken_other_actions_witness :
  let run := @getAwaToken (granting 0 None) account InsertPlugs storeId
               (Some sword)
               (startGranting 0 None {["awa-tokens" := bothActions]}) in
  exists cache',
    awaCache (snd run) = Some cache'
    /\ cache' !! AwaNone = Some (CachedToken.mk (approved 0 None) 4).
Proof.
  intros run.
  destruct (@getAwaToken_other_actions (granting 0 None) account InsertPlugs
              storeId (Some sword)
              (startGranting 0 None {["awa-tokens" := bothActions]})
              (fst run) (snd run) AwaNone)
    as (cache' & Hloaded & Hother).
  - apply surjective_pairing.
  - discriminate.
  - exists cache'. split; [exact Hloaded|]. rewrite Hother. reflexivity.
Defined.


Lemma getAwaToken_prompt_with_request_witness :
  let run := @getAwaToken refusing account InsertPlugs storeId (Some sword)
               startRefusing in
  length (notifications (snd run)) = 1%nat
  /\ length (tokenRequests (snd run)) = 1%nat.
Proof.
  intros run.
  pose proof (@getAwaToken_prompt_with_request refusing account InsertPlugs
                storeId (Some sword) startRefusing (fst run) (snd run)
                (surjective_pairing _)) as Hboth.
  change (needsToken (now startRefusing)
            (effectiveCache startRefusing !! InsertPlugs)) with true in Hboth.
  destruct Hboth as [-> ->]. split; reflexivity.
Defined.

Lemma getAwaToken_unlimited_reuse_witness :
  let first := @getAwaToken (granting 0 None) account InsertPlugs storeId
                 (Some sword) (startGranting 0 None ∅) in
  exists later',
    @getAwaToken (granting 0 None) account InsertPlugs "another-store" None
      (snd first)
    = (inr "token-1", later')
    /\ tokenRequests later' = tokenRequests (snd first).
Proof.
  intros first.
  destruct (@getAwaToken_unlimited_reuse (granting 0 None) account InsertPlugs
              storeId (Some sword) (startGranting 0 None ∅) "token-1" (snd first)
              account "another-store" None (snd first))
    as (later' & Hrun & _ & Hreqs).
  - reflexivity.
  - reflexivity.
  - intros i. vm_compute. intros [= <-]. split; reflexivity.
  - exists later'. split; assumption.
Defined.

Lemma getAwaToken_ignores_store_once_loaded_witness :
  let run := @getAwaToken (granting 0 None) account InsertPlugs storeId
               (Some sword) in
  fst (run (withIdb {["awa-tokens" := bothActions]}
              (loadedGranting 0 None ∅ ∅)))
  = fst (run (loadedGranting 0 None ∅ ∅)).
Proof.
  intros run.
  apply (@getAwaToken_ignores_store_once_loaded (granting 0 None) account
           InsertPlugs storeId (Some sword) (loadedGranting 0 None ∅ ∅) ∅).
  reflexivity.
Defined.


Lemma insertPlug_success_effects_witness :
  exists w2,
    @insertPlug (granting 0 None) sword socket 42 (startGranting 0 None ∅)
    = (inr tt, w2)
    /\ map InsertPlugRequest.characterId (plugRequests w2) = [storeId]
    /\ length (dispatched w2) = 1%nat.
Proof.
  destruct (@insertPlug_success_effects (granting 0 None) sword socket 42
              (startGranting 0 None ∅) "token-1"
              (snd (@getAwaToken (granting 0 None) account InsertPlugs storeId
                      (Some sword) (startGranting 0 None ∅)))
              plugged)
    as (w2 & Hrun & Hplugs & _ & _ & _ & _ & _ & Hacts).
  - reflexivity.
  - reflexivity.
  - exists w2. split; [exact Hrun|]. rewrite Hplugs, Hacts. split; reflexivity.
Defined.

Lemma insertPlug_token_failure_sends_nothing_witness :
  plugRequests (snd (@insertPlug offline sword socket 42 startOffline)) = []
  /\ itemFetches (snd (@insertPlug offline sword socket 42 startOffline)) = [].
Proof.
  apply (@insertPlug_token_failure_sends_nothing offline sword socket 42
           startOffline
           (Caused (Dim "AWA.FailedToken" None) (Thrown "network down"))
           (snd (@getAwaToken offline account InsertPlugs storeId (Some sword)
                   startOffline))).
  reflexivity.
Defined.


Lemma getAwaToken_survives_reload_witness :
  let first := @getAwaToken (granting 0 None) account InsertPlugs storeId
                 (Some sword) (startGranting 0 None ∅) in
  exists reloaded',
    @getAwaToken (granting 0 None) account InsertPlugs storeId (Some sword)
      (setAwaCache None (snd first))
    = (inr "token-1", reloaded')
    /\ tokenRequests reloaded' = tokenRequests (snd first).
Proof.
  intros first.
  destruct (@getAwaToken_survives_reload (granting 0 None) account InsertPlugs
              storeId (Some sword) (startGranting 0 None ∅) "token-1" (snd first)
              account storeId (Some sword) (setAwaCache None (snd first)))
    as (reloaded' & Hrun & _ & Hreqs).
  - reflexivity.
  - reflexivity.
  - reflexivity.
  - intros i. vm_compute. intros [= <-]. split; reflexivity.
  - exists reloaded'. split; assumption.
Defined.

End MoreExamples.
